(** * Notification client: request construction and validation

    A shallow embedding of the two clients of the DataONE notification
    service found in the repository:

    - [NotificationClient] (TypeScript, [src/client.ts]): constructor,
      [normalizeResourceTypes], [request], [subscribe], [unsubscribe],
      [getSubscriptions];
    - [NotificationService] (JavaScript): [_validateResourceType],
      [_request], [subscribe], [unsubscribe], [getSubscriptions].

    JavaScript strings that the code inspects ([trim],
    [encodeURIComponent], template literals) are sequences of UTF-16 code
    units, [list N].  Property names, HTTP verbs and error messages are
    constants of the program and are kept as [string].

    The collaborators (token supplier, PID validator, transport, the
    response's [json()]) are functions over an abstract [World]; every
    invocation is appended, with its arguments and its outcome, to the
    transcript that a run returns.  "Never invoked" and "invoked once"
    are statements about that transcript.

    The public operations spread their [options] argument over their own
    fields.  [Options] is that argument as an object at run time, with the
    keys that collide with those fields; [declared] embeds the declared
    type [KyRequestOptions], which has none of them.

    The error kinds of the specification are not types of the program:
    its ConfigError and ValidationError are the [TypeError]s thrown by the
    constructor and by [request], its AuthError is the [Error] thrown for
    a missing token. *)

From stdpp Require Import base option list gmap strings.
From Stdlib Require Import NArith ZArith Lia.

Local Open Scope N_scope.

(** ** JavaScript strings *)

Abbreviation JsString := (list N).

(** A literal of the source, as code units. *)
Definition js (s : string) : JsString :=
  Ascii.N_of_ascii <$> String.list_ascii_of_string s.
Arguments js : simpl never.

(** [WhiteSpace] and [LineTerminator] of ECMA-262: what
    [String.prototype.trim] strips. *)
Definition isWhiteSpace (u : N) : bool :=
  (u =? 0x09) || (u =? 0x0A) || (u =? 0x0B) || (u =? 0x0C) || (u =? 0x0D)
  || (u =? 0x20) || (u =? 0xA0) || (u =? 0x1680)
  || ((0x2000 <=? u) && (u <=? 0x200A))
  || (u =? 0x2028) || (u =? 0x2029) || (u =? 0x202F) || (u =? 0x205F)
  || (u =? 0x3000) || (u =? 0xFEFF).

Fixpoint trimStart (s : JsString) : JsString :=
  match s with
  | [] => []
  | u :: s' => if isWhiteSpace u then trimStart s' else s
  end.

Definition trimEnd (s : JsString) : JsString :=
  reverse (trimStart (reverse s)).

(** [s.trim()] *)
Definition trim (s : JsString) : JsString := trimEnd (trimStart s).

(** [s.replace(/\/+$/, empty)]: drop the trailing slashes. *)
Fixpoint dropSlashes (s : JsString) : JsString :=
  match s with
  | [] => []
  | u :: s' => if u =? 0x2F then dropSlashes s' else s
  end.

Definition stripTrailingSlashes (s : JsString) : JsString :=
  reverse (dropSlashes (reverse s)).

(** ** [encodeURIComponent] (ECMA-262, Encode with the unreserved set) *)

Definition isAlpha (u : N) : bool :=
  ((0x41 <=? u) && (u <=? 0x5A)) || ((0x61 <=? u) && (u <=? 0x7A)).

Definition isDigit (u : N) : bool := (0x30 <=? u) && (u <=? 0x39).

(** [uriUnreserved]: letters, digits and [- _ . ! ~ * ' ( )]. *)
Definition uriUnreserved (u : N) : bool :=
  isAlpha u || isDigit u
  || (u =? 0x2D) || (u =? 0x5F) || (u =? 0x2E) || (u =? 0x21) || (u =? 0x7E)
  || (u =? 0x2A) || (u =? 0x27) || (u =? 0x28) || (u =? 0x29).

Definition isLeadingSurrogate (u : N) : bool := (0xD800 <=? u) && (u <=? 0xDBFF).
Definition isTrailingSurrogate (u : N) : bool := (0xDC00 <=? u) && (u <=? 0xDFFF).

(** [UTF16SurrogatePairToCodePoint] *)
Definition surrogatePair (lead trail : N) : N :=
  (lead - 0xD800) * 0x400 + (trail - 0xDC00) + 0x10000.

(** The octets of the UTF-8 encoding of a code point. *)
Definition utf8 (cp : N) : list N :=
  if cp <? 0x80 then [cp]
  else if cp <? 0x800 then
    [N.lor 0xC0 (N.shiftr cp 6); N.lor 0x80 (N.land cp 0x3F)]
  else if cp <? 0x10000 then
    [N.lor 0xE0 (N.shiftr cp 12);
     N.lor 0x80 (N.land (N.shiftr cp 6) 0x3F);
     N.lor 0x80 (N.land cp 0x3F)]
  else
    [N.lor 0xF0 (N.shiftr cp 18);
     N.lor 0x80 (N.land (N.shiftr cp 12) 0x3F);
     N.lor 0x80 (N.land (N.shiftr cp 6) 0x3F);
     N.lor 0x80 (N.land cp 0x3F)].

(** An upper-case hexadecimal digit. *)
Definition hexDigit (n : N) : N := if n <? 10 then 0x30 + n else 0x37 + n.

(** ["%XX"] for one octet. *)
Definition percent (octet : N) : JsString :=
  [0x25; hexDigit (N.shiftr octet 4); hexDigit (N.land octet 0xF)].

Definition percentEncode (cp : N) : JsString :=
  mjoin (percent <$> utf8 cp).

(** [None] is the [URIError] that a lone surrogate raises. *)
Fixpoint encodeURIComponent (s : JsString) : option JsString :=
  match s with
  | [] => Some []
  | u :: s' =>
      if uriUnreserved u then (u ::.) <$> encodeURIComponent s'
      else if isLeadingSurrogate u then
        match s' with
        | t :: s'' =>
            if isTrailingSurrogate t
            then (percentEncode (surrogatePair u t) ++.) <$> encodeURIComponent s''
            else None
        | [] => None
        end
      else if isTrailingSurrogate u then None
      else (percentEncode u ++.) <$> encodeURIComponent s'
  end.

Local Close Scope N_scope.

(** ** The constants shared by both clients *)

Module ERROR_MESSAGES.
Definition prefixUrl : string := "prefixUrl is required".
Definition getToken : string := "A getToken function is required".
Definition validatePID : string := "validatePID must be a function".
Definition resourceTypes : string := "resourceTypes must be a non-empty array of strings".
Definition resourceType : string := "Invalid resource type".
Definition noPid : string := "PID is required".
Definition invalidPid : string := "PID is invalid".
Definition noToken : string := "Token is required".
End ERROR_MESSAGES.

Module HTTP_METHODS.
Definition GET : string := "GET".
Definition POST : string := "POST".
Definition DELETE : string := "DELETE".
End HTTP_METHODS.

Definition DEFAULT_TYPES : list JsString := [js "datasetChanges"; js "citations"].

(** The bodiless statuses, [[204, 205, 304]]. *)
Definition noBodyStatuses : list Z := [204; 205; 304]%Z.

(** [array.includes(x)] on numbers. *)
Definition includes (l : list Z) (x : Z) : bool := bool_decide (x ∈ l).

(** A token: [string | null | undefined]. *)
Abbreviation Token := (option JsString).

(** ** The host: what the clients do not define themselves *)

Class Host := {
  (** the state of everything outside the client: the token store, the
      network, the counters of a mock *)
  World : Type;
  (** JavaScript values the client only passes along: parsed bodies and
      whatever a collaborator throws *)
  JsValue : Type;
  (** the per-request options of the declared type [KyRequestOptions]:
      ky's options without [method], [prefixUrl] and [headers] *)
  KyRequestOptions : Type;
  (** the [kyOptions] given to [ky.create] *)
  KyOptions : Type;
}.

Section Effects.
Context `{Host}.

(** What a call can be rejected with.  [TypeError] and [Error] are the
    two constructors the clients use themselves: [TypeError] for a
    rejected configuration or argument, [Error] for a missing token. *)
Inductive Exn :=
| TypeError (message : string)
| Error (message : string)
| URIError
| Thrown (reason : JsValue).

Inductive Outcome (A : Type) :=
| Resolved (a : A)
| Rejected (e : Exn).
Global Arguments Resolved {A} a.
Global Arguments Rejected {A} e.

(** [!token] is false. *)
Definition truthy (token : Token) : bool :=
  match token with
  | Some (_ :: _) => true
  | _ => false
  end.

Definition TokenSupplier : Type := World → Outcome Token * World.

(** The boolean is the truthiness of what the validator resolved to. *)
Definition PidValidator : Type := JsString → World → Outcome bool * World.

Record Response := {
  status : Z;
  json : World → Outcome JsValue * World;
}.

(** The object the transport is called with: [{ method, headers, ...rest }]. *)
Record KyCall := {
  call_method : string;
  call_headers : gmap string JsString;
  call_rest : KyRequestOptions;
}.

Definition KyInstance : Type := JsString → KyCall → World → Outcome Response * World.

(** One entry of the transcript per invocation of a collaborator. *)
Inductive Event :=
| ValidatePID (pid : JsString) (result : Outcome bool)
| GetToken (result : Outcome Token)
| Ky (endpoint : JsString) (options : KyCall) (result : Outcome Response)
| Json (result : Outcome JsValue).

Definition isValidatePID (ev : Event) : bool :=
  match ev with ValidatePID _ _ => true | _ => false end.
Definition isGetToken (ev : Event) : bool :=
  match ev with GetToken _ => true | _ => false end.
Definition isKy (ev : Event) : bool :=
  match ev with Ky _ _ _ => true | _ => false end.
Definition isJson (ev : Event) : bool :=
  match ev with Json _ => true | _ => false end.

(** How many entries of a transcript satisfy [p]. *)
Definition invocations (p : Event → bool) (log : list Event) : nat :=
  length (List.filter p log).

(** An asynchronous computation: from the world it starts in to its
    outcome, the world it leaves and the invocations it made, in order. *)
Definition Async (A : Type) : Type := World → Outcome A * World * list Event.

Definition resolve {A} (a : A) : Async A := λ w, (Resolved a, w, []).
Definition throw {A} (e : Exn) : Async A := λ w, (Rejected e, w, []).

(** [await m] followed by [k]. *)
Definition andThen {A B} (m : Async A) (k : A → Async B) : Async B :=
  λ w,
    match m w with
    | (Resolved a, w1, log1) =>
        match k a w1 with
        | (r, w2, log2) => (r, w2, log1 ++ log2)
        end
    | (Rejected e, w1, log1) => (Rejected e, w1, log1)
    end.

(** [await Promise.resolve(f(...))] with the invocation recorded. *)
Definition invoke {A} (f : World → Outcome A * World)
    (record : Outcome A → Event) : Async A :=
  λ w, match f w with (r, w1) => (r, w1, [record r]) end.

(** [encodeURIComponent], a [URIError] rejecting the call. *)
Definition encode (s : JsString) : Async JsString :=
  match encodeURIComponent s with
  | Some e => resolve e
  | None => throw URIError
  end.

(** [x ← m; k] reads [const x = await m; k]. *)
#[global] Instance Async_ret : MRet Async := @resolve.
#[global] Instance Async_bind : MBind Async := λ A B k m, andThen m k.

End Effects.

(** A constructor argument as JavaScript sees it at run time. *)
Inductive Arg (F : Type) :=
| Nullish                       (* [undefined] or [null] *)
| NotCallable (truthy : bool)   (* any other value that is not a function *)
| Callable (f : F).
Arguments Nullish {F}.
Arguments NotCallable {F} truthy.
Arguments Callable {F} f.

(** [new Set(xs)] keeps the first occurrence of each element, in order. *)
Definition setAdd (acc : list JsString) (x : JsString) : list JsString :=
  if bool_decide (x ∈ acc) then acc else acc ++ [x].

(** [Array.from(new Set(xs))] *)
Definition arrayFromSet (xs : list JsString) : list JsString :=
  foldl setAdd [] xs.

(** ** [NotificationClient] (TypeScript) *)

Module Client.
Section Client.
Context `{Host}.

(** [ky.create({ prefixUrl, ...kyOptions })] of the ky library. *)
Variable ky_create : JsString → option KyOptions → KyInstance.

(** The constructor's argument.  [None] is a key left out; the two
    functions are whatever the caller passed. *)
Record NotificationClientOptions := {
  prefixUrl : option JsString;
  getToken : Arg TokenSupplier;
  validatePID : Arg PidValidator;
  resourceTypes : option (list JsString);
  kyOptions : option KyOptions;
  kyInstance : option KyInstance;
}.

(** The private fields.  [this_validatePID] is [None] when the
    constructor stored a falsy value that is not a function ([false], [0],
    the empty string), which [validatePID && ...] and [??] both let
    through. *)
Record NotificationClient := {
  this_prefixUrl : JsString;
  this_getToken : TokenSupplier;
  this_validatePID : option PidValidator;
  this_resourceTypes : gset JsString;
  this_ky : KyInstance;
}.

Definition normalizeResourceTypes (resourceTypes : list JsString) : list JsString :=
  arrayFromSet (List.filter (λ type, 0 <? length type) (trim <$> resourceTypes)).

(** [!prefixUrl] *)
Definition missing (prefixUrl : option JsString) : bool :=
  match prefixUrl with
  | Some (_ :: _) => false
  | _ => true
  end.

Definition constructor (options : NotificationClientOptions) : Exn + NotificationClient :=
  if missing (prefixUrl options) then inl (TypeError ERROR_MESSAGES.prefixUrl)
  else
    match getToken options with
    | Nullish | NotCallable _ => inl (TypeError ERROR_MESSAGES.getToken)
    | Callable getToken =>
        match validatePID options with
        | NotCallable true => inl (TypeError ERROR_MESSAGES.validatePID)
        | validatePID =>
            let normalizedTypes :=
              normalizeResourceTypes (default DEFAULT_TYPES (resourceTypes options)) in
            if length normalizedTypes =? 0 then
              inl (TypeError ERROR_MESSAGES.resourceTypes)
            else
              let prefixUrl := stripTrailingSlashes (default [] (prefixUrl options)) in
              inr {|
                this_prefixUrl := prefixUrl;
                this_getToken := getToken;
                this_validatePID :=
                  match validatePID with
                  | Nullish => Some (λ _ w, (Resolved true, w))
                  | NotCallable _ => None
                  | Callable f => Some f
                  end;
                this_resourceTypes := list_to_set normalizedTypes;
                this_ky :=
                  match kyInstance options with
                  | Some ky => ky
                  | None => ky_create prefixUrl (kyOptions options)
                  end;
              |}
        end
    end.

(** [InternalRequestOptions]: what [request] destructures.  [headers] is
    a [headers] key carried by the object; the declared type has none, and
    [request] leaves it in [...rest]. *)
Record InternalRequestOptions := {
  resourceType : JsString;
  method : option string;
  pidRequired : option bool;
  headers : option (gmap string JsString);
  rest : KyRequestOptions;
}.

(** The [options] argument of a public operation as an object at run
    time: the keys that meet the operation's own fields, and the rest.  A
    key whose value is [undefined] takes the default of [request]'s
    destructuring and so behaves as [Some] of that default. *)
Record Options := {
  o_resourceType : option JsString;
  o_method : option string;
  o_pidRequired : option bool;
  o_headers : option (gmap string JsString);
  o_rest : KyRequestOptions;
}.

(** An [options] object of the declared type [KyRequestOptions]. *)
Definition declared (options : KyRequestOptions) : Options :=
  {| o_resourceType := None; o_method := None; o_pidRequired := None;
     o_headers := None; o_rest := options |}.

(** [{ resourceType, method, pidRequired, ...options }] *)
Definition spread (resourceType : JsString) (method : string) (pidRequired : bool)
    (options : Options) : InternalRequestOptions :=
  {| resourceType := default resourceType (o_resourceType options);
     method := Some (default method (o_method options));
     pidRequired := Some (default pidRequired (o_pidRequired options));
     headers := o_headers options;
     rest := o_rest options |}.

(** [this.validatePID(normalizedPid)], awaited. *)
Definition callValidatePID (this : NotificationClient) (pid : JsString) : Async bool :=
  match this_validatePID this with
  | Some validatePID => invoke (validatePID pid) (ValidatePID pid)
  | None => throw (TypeError "this.validatePID is not a function")
  end.

Definition request (this : NotificationClient) (pid : option JsString)
    (options : InternalRequestOptions) : Async (option JsValue) :=
  let method := default HTTP_METHODS.GET (method options) in
  let pidRequired := default true (pidRequired options) in
  let normalizedResourceType := trim (resourceType options) in
  if negb (bool_decide (normalizedResourceType ∈ this_resourceTypes this)) then
    throw (TypeError ERROR_MESSAGES.resourceType)
  else
  let normalizedPid := default [] (trim <$> pid) in
  if pidRequired && (length normalizedPid =? 0) then
    throw (TypeError ERROR_MESSAGES.noPid)
  else
  _ ← (if pidRequired && (0 <? length normalizedPid) then
         isValid ← callValidatePID this normalizedPid;
         if negb isValid then throw (TypeError ERROR_MESSAGES.invalidPid)
         else resolve ()
       else resolve ());
  token ← invoke (this_getToken this) GetToken;
  if negb (truthy token) then throw (Error ERROR_MESSAGES.noToken) else
  endpoint ← encode normalizedResourceType;
  endpoint ← (if pidRequired && (0 <? length normalizedPid) then
                encodedPid ← encode normalizedPid;
                resolve (endpoint ++ js "/" ++ encodedPid)
              else resolve endpoint);
  let call :=
    {| call_method := method;
       call_headers :=
         default {[ "Authorization" := js "Bearer " ++ default [] token ]}
                 (headers options);
       call_rest := rest options |} in
  response ← invoke (this_ky this endpoint call) (Ky endpoint call);
  if includes noBodyStatuses (status response) then resolve None
  else
    body ← invoke (json response) Json;
    resolve (Some body).

Definition subscribe (this : NotificationClient) (pid : option JsString)
    (resourceType : JsString) (options : Options) : Async (option JsValue) :=
  request this pid (spread resourceType HTTP_METHODS.POST true options).

Definition unsubscribe (this : NotificationClient) (pid : option JsString)
    (resourceType : JsString) (options : Options) : Async () :=
  _ ← request this pid (spread resourceType HTTP_METHODS.DELETE true options);
  resolve ().

Definition getSubscriptions (this : NotificationClient)
    (resourceType : JsString) (options : Options) : Async (option JsValue) :=
  request this None (spread resourceType HTTP_METHODS.GET false options).

End Client.

(** *** The paths through [request]

    A run of [request] is one of the paths below; [request_paths] proves
    that the function takes exactly these. *)

Section Paths.
Context `{Host}.
Variables (this : NotificationClient) (pid : option JsString)
  (options : InternalRequestOptions).

(** [pid?.trim()], the empty string when [pid] is [null] or [undefined] *)
Definition normalizedPid : JsString := default [] (trim <$> pid).

(** [pidRequired && normalizedPid.length > 0] *)
Definition withPid : bool :=
  default true (pidRequired options) && (0 <? length normalizedPid).

(** The endpoint of a request that gets as far as the transport. *)
Definition endpointOf : option JsString :=
  match encodeURIComponent (trim (resourceType options)) with
  | Some endpoint =>
      if withPid then
        match encodeURIComponent normalizedPid with
        | Some encodedPid => Some (endpoint ++ js "/" ++ encodedPid)
        | None => None
        end
      else Some endpoint
  | None => None
  end.

(** The object given to the transport:
    [{ method, headers: { Authorization }, ...rest }]. *)
Definition callOf (token : Token) : KyCall :=
  {| call_method := default HTTP_METHODS.GET (method options);
     call_headers :=
       default {[ "Authorization" := js "Bearer " ++ default [] token ]}
               (headers options);
     call_rest := rest options |}.

(** The body of [request] from the token on, as it stands there. *)
Definition dispatch : Async (option JsValue) :=
  token ← invoke (this_getToken this) GetToken;
  if negb (truthy token) then throw (Error ERROR_MESSAGES.noToken) else
  endpoint ← encode (trim (resourceType options));
  endpoint ← (if withPid then
                encodedPid ← encode normalizedPid;
                resolve (endpoint ++ js "/" ++ encodedPid)
              else resolve endpoint);
  response ← invoke (this_ky this endpoint (callOf token)) (Ky endpoint (callOf token));
  if includes noBodyStatuses (status response) then resolve None
  else
    body ← invoke (json response) Json;
    resolve (Some body).

(** The last step: the response is interpreted. *)
Inductive Interprets (response : Response) (w : World) :
  Outcome (option JsValue) → World → list Event → Prop :=
| interprets_no_body :
    includes noBodyStatuses (status response) = true →
    Interprets response w (Resolved None) w []
| interprets_body body w1 :
    includes noBodyStatuses (status response) = false →
    json response w = (Resolved body, w1) →
    Interprets response w (Resolved (Some body)) w1 [Json (Resolved body)]
| interprets_failure e w1 :
    includes noBodyStatuses (status response) = false →
    json response w = (Rejected e, w1) →
    Interprets response w (Rejected e) w1 [Json (Rejected e)].

(** From the token to the response: what follows the validation of the
    arguments. *)
Inductive Sends (w : World) : Outcome (option JsValue) → World → list Event → Prop :=
| sends_token_rejected e w1 :
    this_getToken this w = (Rejected e, w1) →
    Sends w (Rejected e) w1 [GetToken (Rejected e)]
| sends_no_token token w1 :
    this_getToken this w = (Resolved token, w1) →
    truthy token = false →
    Sends w (Rejected (Error ERROR_MESSAGES.noToken)) w1 [GetToken (Resolved token)]
| sends_uri_error token w1 :
    this_getToken this w = (Resolved token, w1) →
    truthy token = true →
    endpointOf = None →
    Sends w (Rejected URIError) w1 [GetToken (Resolved token)]
| sends_transport_rejected token w1 endpoint e w2 :
    this_getToken this w = (Resolved token, w1) →
    truthy token = true →
    endpointOf = Some endpoint →
    this_ky this endpoint (callOf token) w1 = (Rejected e, w2) →
    Sends w (Rejected e) w2
      [GetToken (Resolved token); Ky endpoint (callOf token) (Rejected e)]
| sends_response token w1 endpoint response w2 out w3 log :
    this_getToken this w = (Resolved token, w1) →
    truthy token = true →
    endpointOf = Some endpoint →
    this_ky this endpoint (callOf token) w1 = (Resolved response, w2) →
    Interprets response w2 out w3 log →
    Sends w out w3
      (GetToken (Resolved token)
         :: Ky endpoint (callOf token) (Resolved response) :: log).

Inductive Run (w : World) : Outcome (option JsValue) → World → list Event → Prop :=
| run_invalid_type :
    trim (resourceType options) ∉ this_resourceTypes this →
    Run w (Rejected (TypeError ERROR_MESSAGES.resourceType)) w []
| run_no_pid :
    trim (resourceType options) ∈ this_resourceTypes this →
    default true (pidRequired options) = true →
    normalizedPid = [] →
    Run w (Rejected (TypeError ERROR_MESSAGES.noPid)) w []
| run_not_callable :
    trim (resourceType options) ∈ this_resourceTypes this →
    withPid = true →
    this_validatePID this = None →
    Run w (Rejected (TypeError "this.validatePID is not a function")) w []
| run_validator_rejected validatePID e w1 :
    trim (resourceType options) ∈ this_resourceTypes this →
    withPid = true →
    this_validatePID this = Some validatePID →
    validatePID normalizedPid w = (Rejected e, w1) →
    Run w (Rejected e) w1 [ValidatePID normalizedPid (Rejected e)]
| run_invalid_pid validatePID w1 :
    trim (resourceType options) ∈ this_resourceTypes this →
    withPid = true →
    this_validatePID this = Some validatePID →
    validatePID normalizedPid w = (Resolved false, w1) →
    Run w (Rejected (TypeError ERROR_MESSAGES.invalidPid)) w1
      [ValidatePID normalizedPid (Resolved false)]
| run_valid_pid validatePID w1 out w2 log :
    trim (resourceType options) ∈ this_resourceTypes this →
    withPid = true →
    this_validatePID this = Some validatePID →
    validatePID normalizedPid w = (Resolved true, w1) →
    Sends w1 out w2 log →
    Run w out w2 (ValidatePID normalizedPid (Resolved true) :: log)
| run_without_pid out w1 log :
    trim (resourceType options) ∈ this_resourceTypes this →
    default true (pidRequired options) = false →
    Sends w out w1 log →
    Run w out w1 log.

End Paths.
End Client.

(** ** [NotificationService] (JavaScript) *)

Module Service.

Module METHODS.
Definition GET : string := "GET".
Definition POST : string := "POST".
Definition DELETE : string := "DELETE".
End METHODS.

Section Service.
Context `{Host}.

Record NotificationService := {
  this_prefixUrl : JsString;
  this_getToken : TokenSupplier;
  this_validatePID : PidValidator;
  this_resourceTypes : gset JsString;
  this_ky : KyInstance;
}.

(** The object [_request] destructures:
    [{ resourceType, method, pidRequired, headers, ...rest }]. *)
Record RequestOptions := {
  resourceType : JsString;
  method : option string;
  pidRequired : option bool;
  headers : option (gmap string JsString);
  rest : KyRequestOptions;
}.

(** The [options] argument of a public operation, an object. *)
Record Options := {
  o_resourceType : option JsString;
  o_method : option string;
  o_pidRequired : option bool;
  o_headers : option (gmap string JsString);
  o_rest : KyRequestOptions;
}.

(** [{ resourceType, method, pidRequired, ...options }] *)
Definition spread (resourceType : JsString) (method : string) (pidRequired : bool)
    (options : Options) : RequestOptions :=
  {| resourceType := default resourceType (o_resourceType options);
     method := Some (default method (o_method options));
     pidRequired := Some (default pidRequired (o_pidRequired options));
     headers := o_headers options;
     rest := o_rest options |}.

Definition _validateResourceType (this : NotificationService)
    (resourceType : JsString) : bool :=
  bool_decide (resourceType ∈ this_resourceTypes this).

(** [!pid] is false: a string that is not empty. *)
Definition present (pid : option JsString) : bool :=
  match pid with
  | Some (_ :: _) => true
  | _ => false
  end.

(** Past the [!pid] check a required [pid] is a non-empty string;
    [default [] pid] is that string. *)
Definition _request (this : NotificationService) (pid : option JsString)
    (options : RequestOptions) : Async (option JsValue) :=
  let method := default METHODS.GET (method options) in
  let pidRequired := default true (pidRequired options) in
  if negb (_validateResourceType this (resourceType options)) then
    throw (TypeError ERROR_MESSAGES.resourceType)
  else
  if pidRequired && negb (present pid) then throw (TypeError ERROR_MESSAGES.noPid)
  else
  _ ← (if pidRequired then
         ok ← invoke (this_validatePID this (default [] pid))
                     (ValidatePID (default [] pid));
         if negb ok then throw (TypeError ERROR_MESSAGES.invalidPid)
         else resolve ()
       else resolve ());
  token ← invoke (this_getToken this) GetToken;
  if negb (truthy token) then throw (Error ERROR_MESSAGES.noToken) else
  let authHeader : gmap string JsString :=
    {[ "Authorization" := js "Bearer " ++ default [] token ]} in
  let mergedHeaders := default ∅ (headers options) ∪ authHeader in
  endpoint ← encode (resourceType options);
  endpoint ← (if pidRequired then
                encodedPid ← encode (default [] pid);
                resolve (endpoint ++ js "/" ++ encodedPid)
              else resolve endpoint);
  let call :=
    {| call_method := method; call_headers := mergedHeaders;
       call_rest := rest options |} in
  response ← invoke (this_ky this endpoint call) (Ky endpoint call);
  if includes noBodyStatuses (status response) then resolve None
  else
    body ← invoke (json response) Json;
    resolve (Some body).

Definition subscribe (this : NotificationService) (pid : option JsString)
    (resourceType : JsString) (options : Options) : Async (option JsValue) :=
  _request this pid (spread resourceType METHODS.POST true options).

Definition unsubscribe (this : NotificationService) (pid : option JsString)
    (resourceType : JsString) (options : Options) : Async (option JsValue) :=
  _request this pid (spread resourceType METHODS.DELETE true options).

Definition getSubscriptions (this : NotificationService)
    (resourceType : JsString) (options : Options) : Async (option JsValue) :=
  _request this None (spread resourceType METHODS.GET false options).

End Service.
End Service.

(** ** Fixtures: the mocks of the test suite *)

(** The world of the mocks counts the invocations made so far; parsed
    bodies and thrown values are shown as text; the only pass-through
    option is a timeout. *)
Definition mockHost : Host :=
  {| World := nat; JsValue := string; KyRequestOptions := option nat; KyOptions := unit |}.

Section Mocks.
#[local] Existing Instance mockHost.

Definition tokenMock (token : Token) : TokenSupplier :=
  λ w, (Resolved token, S w).

Definition validatorMock (verdict : bool) : PidValidator :=
  λ _ w, (Resolved verdict, S w).

Definition responseMock (status : Z) (body : Outcome JsValue) : Response :=
  {| status := status; json := λ w, (body, S w) |}.

Definition kyMock (status : Z) (body : Outcome JsValue) : KyInstance :=
  λ _ _ w, (Resolved (responseMock status body), S w).

Definition subscription : JsValue :=
  "{resourceIds:[pid-123],resourceType:datasetChanges,subject:user-1}".

Definition mockOptions (token : Token) (verdict : bool) (status : Z)
    (body : Outcome JsValue) : Client.NotificationClientOptions :=
  {| Client.prefixUrl := Some (js "https://api.example.org/v1/");
     Client.getToken := Callable (tokenMock token);
     Client.validatePID := Callable (validatorMock verdict);
     Client.resourceTypes := None;
     Client.kyOptions := None;
     Client.kyInstance := Some (kyMock status body) |}.

Definition mockClient (token : Token) (verdict : bool) (status : Z)
    (body : Outcome JsValue) : Client.NotificationClient :=
  {| Client.this_prefixUrl := js "https://api.example.org/v1";
     Client.this_getToken := tokenMock token;
     Client.this_validatePID := Some (validatorMock verdict);
     Client.this_resourceTypes := list_to_set DEFAULT_TYPES;
     Client.this_ky := kyMock status body |}.

Definition mockService (token : Token) (verdict : bool) (status : Z)
    (body : Outcome JsValue) : Service.NotificationService :=
  {| Service.this_prefixUrl := js "https://api.example.org/v1";
     Service.this_getToken := tokenMock token;
     Service.this_validatePID := validatorMock verdict;
     Service.this_resourceTypes := list_to_set DEFAULT_TYPES;
     Service.this_ky := kyMock status body |}.

(** [ky.create] is not reached when a [kyInstance] is injected. *)
Definition createMock : JsString → option KyOptions → KyInstance :=
  λ _ _, kyMock 200 (Resolved subscription).

(** [{ headers: { "X-Trace": "1" } }] *)
Definition traceHeaders : gmap string JsString := {[ "X-Trace" := js "1" ]}.

End Mocks.

Import Client.

Section MoreMocks.
#[local] Existing Instance mockHost.

(** The client and the service of the tests. *)
Definition theClient : NotificationClient :=
  mockClient (Some (js "token-123")) true 200 (Resolved subscription).

Definition theService : Service.NotificationService :=
  mockService (Some (js "token-123")) true 200 (Resolved subscription).

(** A client whose validator approves nothing. *)
Definition strictClient : NotificationClient :=
  mockClient (Some (js "token-123")) false 200 (Resolved subscription).

(** A client whose token supplier resolves to the empty string. *)
Definition tokenlessClient : NotificationClient :=
  mockClient (Some []) true 200 (Resolved subscription).

(** A client whose transport answers 204. *)
Definition quietClient : NotificationClient :=
  mockClient (Some (js "token-abc")) true 204 (Resolved subscription).

(** [{ headers: { "X-Trace": "1" } }], for either client. *)
Definition clientTrace : Options :=
  {| o_resourceType := None; o_method := None; o_pidRequired := None;
     o_headers := Some traceHeaders; o_rest := None |}.

Definition serviceTrace : Service.Options :=
  {| Service.o_resourceType := None; Service.o_method := None;
     Service.o_pidRequired := None; Service.o_headers := Some traceHeaders;
     Service.o_rest := None |}.

(** [{ pidRequired: false }] *)
Definition withoutPid : Options :=
  {| o_resourceType := None; o_method := None; o_pidRequired := Some false;
     o_headers := None; o_rest := None |}.

(** [resourceTypes] holds a blank, the empty string and the blank again. *)
Definition blankTypes : NotificationClientOptions :=
  {| prefixUrl := Some (js "https://api.example.org/v1/");
     getToken := Callable (tokenMock (Some (js "token-123")));
     validatePID := Nullish;
     resourceTypes := Some [js " "; []; js " "];
     kyOptions := None;
     kyInstance := None |}.

(** An empty [prefixUrl] and an empty [resourceTypes]. *)
Definition noPrefix : NotificationClientOptions :=
  {| prefixUrl := Some [];
     getToken := Callable (tokenMock (Some (js "token-123")));
     validatePID := Nullish;
     resourceTypes := Some [];
     kyOptions := None;
     kyInstance := None |}.

End MoreMocks.

(** ** The vocabulary of the statements *)

(** ["/"] *)
Definition slash : N := 0x2F%N.
(** White space throughout (the empty string included). *)
Definition blank (s : JsString) : bool := forallb isWhiteSpace s.

(** A PID that is [null], [undefined], empty or white space only. *)
Definition blankPid (pid : option JsString) : bool :=
  match pid with None => true | Some s => blank s end.

(** [{ Authorization: `Bearer ${token}` }] *)
Definition bearer (token : JsString) : gmap string JsString :=
  {[ "Authorization" := js "Bearer " ++ token ]}.

(** The computation, started in [w], resolves and leaves the transcript
    [log]. *)
Definition succeeds `{Host} {A} (m : Async A) (w : World) (log : list Event) : Prop :=
  ∃ v w', m w = (Resolved v, w', log).

(** The transcript shows the token the supplier resolved to and the
    transport called with the headers [headers token]. *)
Definition sentWith `{Host} (log : list Event)
    (headers : JsString → gmap string JsString) : Prop :=
  ∃ token endpoint call response,
    GetToken (Resolved (Some token)) ∈ log ∧
    Ky endpoint call (Resolved response) ∈ log ∧
    call_headers call = headers token.

(** How an outcome follows from the response the transport returned:
    nothing is parsed for a bodiless status; otherwise [json()] is invoked
    once and its outcome decides, [returned] saying what the operation
    makes of the parsed body. *)
Definition interpretedAs `{Host} {A} (returned : JsValue → A) (nothing : A)
    (response : Response) (out : Outcome A) (w' : World) (log : list Event) : Prop :=
  (status response ∈ noBodyStatuses →
   out = Resolved nothing ∧ invocations isJson log = 0)
  ∧ (status response ∉ noBodyStatuses →
     ∃ w1 result,
       json response w1 = (result, w') ∧ Json result ∈ log ∧
       invocations isJson log = 1 ∧
       out = match result with
             | Resolved body => Resolved (returned body)
             | Rejected e => Rejected e
             end).

(** * Proofs *)

(** ** Examples of the string functions *)

Section StringExamples.
Local Open Scope N_scope.

Example encode_slash : encodeURIComponent (js "a/b") = Some (js "a%2Fb").
Proof. reflexivity. Qed.

Example encode_doi :
  encodeURIComponent (js "doi:10.abc/123") = Some (js "doi%3A10.abc%2F123").
Proof. reflexivity. Qed.

Example encode_eacute : encodeURIComponent [0xE9] = Some (js "%C3%A9").
Proof. reflexivity. Qed.

Example encode_euro : encodeURIComponent [0x20AC] = Some (js "%E2%82%AC").
Proof. reflexivity. Qed.

Example encode_pair : encodeURIComponent [0xD83D; 0xDE00] = Some (js "%F0%9F%98%80").
Proof. reflexivity. Qed.

Example encode_lone : encodeURIComponent [0x61; 0xD83D] = None.
Proof. reflexivity. Qed.

Example trim_example : trim (js "  citations	 ") = js "citations".
Proof. reflexivity. Qed.

End StringExamples.

(** ** Strings *)

Section StringFacts.
Local Open Scope N_scope.

Lemma trimStart_blank s : trimStart s = [] ↔ blank s = true.
Proof.
  induction s as [|u s IH]; simpl; [done|].
  destruct (isWhiteSpace u); simpl; [done|]. split; discriminate.
Qed.

Lemma trimStart_head s u t : trimStart s = u :: t → isWhiteSpace u = false.
Proof.
  induction s as [|v s IH]; simpl; [done|].
  destruct (isWhiteSpace v) eqn:Hv; [done|]. by intros [= <- _].
Qed.

Lemma blank_reverse s : blank (reverse s) = blank s.
Proof.
  unfold blank. induction s as [|u s IH]; [done|].
  rewrite reverse_cons, forallb_app, IH. simpl. rewrite andb_true_r. apply andb_comm.
Qed.

Lemma trimStart_blank_inv s : blank (trimStart s) = true → trimStart s = [].
Proof.
  destruct (trimStart s) as [|u t] eqn:E; [done|].
  apply trimStart_head in E. simpl. by rewrite E.
Qed.

(** A string trims to the empty string exactly when it is white space
    throughout. *)
Lemma trim_blank s : trim s = [] ↔ blank s = true.
Proof.
  unfold trim, trimEnd. split.
  - intros E. apply (f_equal reverse) in E. rewrite reverse_involutive in E.
    change (reverse []) with (@nil N) in E.
    apply trimStart_blank in E. rewrite blank_reverse in E.
    apply trimStart_blank. by apply trimStart_blank_inv.
  - intros E. apply trimStart_blank in E. by rewrite E.
Qed.

Lemma normalizedPid_blank pid : Client.normalizedPid pid = [] ↔ blankPid pid = true.
Proof. destruct pid as [s|]; simpl; [apply trim_blank|done]. Qed.

Lemma setAdd_acc acc xs : foldl setAdd acc xs = [] → acc = [] ∧ xs = [].
Proof.
  revert acc. induction xs as [|x xs IH]; intros acc; simpl; [done|].
  intros E. apply IH in E as [E _]. unfold setAdd in E.
  case_bool_decide as Hin.
  - subst. by apply not_elem_of_nil in Hin.
  - by destruct acc.
Qed.

Lemma arrayFromSet_nil xs : arrayFromSet xs = [] ↔ xs = [].
Proof.
  split; [|by intros ->]. intros E. by apply setAdd_acc in E as [_ ?].
Qed.

(** A collection normalizes to nothing exactly when every entry is blank. *)
Lemma normalizeResourceTypes_nil resourceTypes :
  Client.normalizeResourceTypes resourceTypes = []
  ↔ Forall (λ type, blank type = true) resourceTypes.
Proof.
  unfold Client.normalizeResourceTypes. rewrite arrayFromSet_nil.
  induction resourceTypes as [|type types IH]; simpl; [done|].
  rewrite Forall_cons, <- IH, <- trim_blank.
  destruct (trim type) as [|u t]; simpl; [|split; [done|by intros [? _]]].
  split; [done|by intros [_ ?]].
Qed.

Lemma uriUnreserved_not_slash u : uriUnreserved u = true → u ≠ slash.
Proof. intros E ->. vm_compute in E. discriminate. Qed.

Lemma hexDigit_not_slash n : hexDigit n ≠ slash.
Proof. unfold hexDigit, slash. destruct (N.ltb_spec n 10); lia. Qed.

Lemma percent_no_slash octet : slash ∉ percent octet.
Proof.
  unfold percent. rewrite !not_elem_of_cons. repeat split.
  - done.
  - apply not_eq_sym, hexDigit_not_slash.
  - apply not_eq_sym, hexDigit_not_slash.
  - apply not_elem_of_nil.
Qed.

Lemma percentEncode_no_slash cp : slash ∉ percentEncode cp.
Proof.
  unfold percentEncode. intros Hin.
  apply list_elem_of_join in Hin as (l & Hin & Hl).
  apply list_elem_of_fmap in Hl as (octet & -> & _).
  by apply percent_no_slash in Hin.
Qed.

Lemma encodeURIComponent_no_slash_upto n s e :
  (length s ≤ n)%nat → encodeURIComponent s = Some e → slash ∉ e.
Proof.
  revert s e. induction n as [|n IH]; intros [|u s] e Hlen; simpl in *;
    try lia; try (intros [= <-]; apply not_elem_of_nil).
  destruct (uriUnreserved u) eqn:Hu.
  { destruct (encodeURIComponent s) as [e'|] eqn:He; [|done].
    intros [= <-]. apply not_elem_of_cons. split.
    - apply not_eq_sym. by apply uriUnreserved_not_slash.
    - apply (IH s); [lia|done]. }
  destruct (isLeadingSurrogate u).
  { destruct s as [|t s]; [done|]. destruct (isTrailingSurrogate t); [|done].
    destruct (encodeURIComponent s) as [e'|] eqn:He; [|done].
    intros [= <-]. rewrite elem_of_app. intros [Hin|Hin].
    - by apply percentEncode_no_slash in Hin.
    - revert Hin. apply (IH s); [simpl in Hlen; lia|done]. }
  destruct (isTrailingSurrogate u); [done|].
  destruct (encodeURIComponent s) as [e'|] eqn:He; [|done].
  intros [= <-]. rewrite elem_of_app. intros [Hin|Hin].
  - by apply percentEncode_no_slash in Hin.
  - revert Hin. apply (IH s); [lia|done].
Qed.

(** An encoded component holds no ["/"]: it is one path segment. *)
Lemma encodeURIComponent_no_slash s e :
  encodeURIComponent s = Some e → slash ∉ e.
Proof. by apply (encodeURIComponent_no_slash_upto (length s)). Qed.

Lemma encodeURIComponent_slash_upto n s1 s2 e :
  (length s1 ≤ n)%nat →
  encodeURIComponent (s1 ++ slash :: s2) = Some e →
  ∃ e1 e2, encodeURIComponent s1 = Some e1 ∧ encodeURIComponent s2 = Some e2
           ∧ e = e1 ++ js "%2F" ++ e2.
Proof.
  revert s1 e. induction n as [|n IH]; intros [|u s1] e Hlen; simpl in Hlen; try lia.
  1, 2: change (encodeURIComponent ([] ++ slash :: s2))
      with ((js "%2F" ++.) <$> encodeURIComponent s2);
    (destruct (encodeURIComponent s2) as [e2|]; [|done]);
    intros [= <-]; by exists [], e2.
  simpl.
  destruct (uriUnreserved u) eqn:Hu.
  { destruct (encodeURIComponent (s1 ++ _)) as [e'|] eqn:He; [|done].
    intros [= <-]. apply IH in He as (e1 & e2 & -> & He2 & ->); [|lia].
    by exists (u :: e1), e2. }
  destruct (isLeadingSurrogate u).
  { destruct s1 as [|t s1]; simpl; [done|].
    destruct (isTrailingSurrogate t); [|done].
    destruct (encodeURIComponent (s1 ++ _)) as [e'|] eqn:He; [|done].
    intros [= <-]. apply IH in He as (e1 & e2 & -> & He2 & ->); [|simpl in Hlen; lia].
    exists (percentEncode (surrogatePair u t) ++ e1), e2.
    by rewrite <- app_assoc. }
  destruct (isTrailingSurrogate u); [done|].
  destruct (encodeURIComponent (s1 ++ _)) as [e'|] eqn:He; [|done].
  intros [= <-]. apply IH in He as (e1 & e2 & -> & He2 & ->); [|lia].
  exists (percentEncode u ++ e1), e2. by rewrite <- app_assoc.
Qed.

(** A ["/"] inside a component comes out as ["%2F"]. *)
Lemma encodeURIComponent_slash s1 s2 e :
  encodeURIComponent (s1 ++ slash :: s2) = Some e →
  ∃ e1 e2, encodeURIComponent s1 = Some e1 ∧ encodeURIComponent s2 = Some e2
           ∧ e = e1 ++ js "%2F" ++ e2.
Proof. by apply (encodeURIComponent_slash_upto (length s1)). Qed.

End StringFacts.

(** ** Running asynchronous computations *)

Section AsyncFacts.
Context `{Host}.

Lemma andThen_run {A B} (m : Async A) (k : A → Async B) w out w' log :
  andThen m k w = (out, w', log) →
  (∃ e, m w = (Rejected e, w', log) ∧ out = Rejected e) ∨
  (∃ a w1 log1 log2,
     m w = (Resolved a, w1, log1) ∧ k a w1 = (out, w', log2) ∧ log = log1 ++ log2).
Proof.
  unfold andThen. destruct (m w) as [[[a|e] w1] log1].
  - destruct (k a w1) as [[r w2] log2] eqn:Hk. intros [= <- <- <-]. right.
    by exists a, w1, log1, log2.
  - intros [= <- <- <-]. left. by exists e.
Qed.

Lemma andThen_resolved {A B} (m : Async A) (k : A → Async B) w a w1 log1 out w2 log2 :
  m w = (Resolved a, w1, log1) → k a w1 = (out, w2, log2) →
  andThen m k w = (out, w2, log1 ++ log2).
Proof. unfold andThen. by intros -> ->. Qed.

Lemma andThen_rejected {A B} (m : Async A) (k : A → Async B) w e w1 log1 :
  m w = (Rejected e, w1, log1) → andThen m k w = (Rejected e, w1, log1).
Proof. unfold andThen. by intros ->. Qed.

Lemma invoke_run {A} (f : World → Outcome A * World) record w out w' log :
  invoke f record w = (out, w', log) ↔ f w = (out, w') ∧ log = [record out].
Proof.
  unfold invoke. destruct (f w) as [r w1]. split.
  - by intros [= <- <- <-].
  - by intros [[= <- <-] ->].
Qed.

Lemma resolve_run {A} (a : A) w out w' log :
  resolve a w = (out, w', log) → out = Resolved a ∧ w' = w ∧ log = [].
Proof. by intros [= <- <- <-]. Qed.

Lemma throw_run {A} e w (out : Outcome A) w' log :
  throw e w = (out, w', log) → out = Rejected e ∧ w' = w ∧ log = [].
Proof. by intros [= <- <- <-]. Qed.

Lemma encode_run s w out w' log :
  encode s w = (out, w', log) →
  w' = w ∧ log = [] ∧
  ((∃ e, encodeURIComponent s = Some e ∧ out = Resolved e)
   ∨ (encodeURIComponent s = None ∧ out = Rejected URIError)).
Proof.
  unfold encode. destruct (encodeURIComponent s) as [e|]; intros [= <- <- <-].
  - split_and!; [done..|]. left. by exists e.
  - split_and!; [done..|]. by right.
Qed.

End AsyncFacts.

Section ClientFacts.
Context `{Host}.
Implicit Types (this : NotificationClient) (pid : option JsString)
  (io : InternalRequestOptions) (w : World) (log : list Event).
Opaque js encodeURIComponent trim.

Lemma endpointOf_with pid io e1 :
  encodeURIComponent (trim (resourceType io)) = Some e1 →
  endpointOf pid io =
    if withPid pid io
    then (λ e2, e1 ++ js "/" ++ e2) <$> encodeURIComponent (normalizedPid pid)
    else Some e1.
Proof.
  intros E. unfold endpointOf. rewrite E.
  destruct (withPid pid io); [|done]. by destruct (encodeURIComponent _).
Qed.

Lemma interpret_run (response : Response) w out w' log :
  (if includes noBodyStatuses (status response) then resolve None
   else andThen (invoke (json response) Json) (λ body, resolve (Some body))) w
  = (out, w', log) ↔
  Interprets response w out w' log.
Proof.
  split.
  - destruct (includes _ _) eqn:Hs.
    + intros (-> & -> & ->)%resolve_run. by constructor.
    + intros [(e & (Hj & ->)%invoke_run & ->)
             |(body & w1 & log1 & log2 & (Hj & ->)%invoke_run
                 & (-> & -> & ->)%resolve_run & ->)]%andThen_run.
      * by apply interprets_failure.
      * by apply interprets_body.
  - intros [Hs|body w1 Hs Hj|e w1 Hs Hj]; rewrite Hs; [done| |].
    + by erewrite andThen_resolved; [|by apply invoke_run|done].
    + by erewrite andThen_rejected; [|by apply invoke_run].
Qed.

Lemma dispatch_paths this pid io w out w' log :
  dispatch this pid io w = (out, w', log) ↔ Sends this pid io w out w' log.
Proof.
  unfold dispatch, mbind, Async_bind. split.
  - intros [(e & (Htok & ->)%invoke_run & ->)
           |(token & w2 & ? & log2 & (Htok & ->)%invoke_run & Hrun & ->)]%andThen_run;
      [by constructor|].
    destruct (truthy token) eqn:Ht; simpl in Hrun;
      [|apply throw_run in Hrun as (-> & -> & ->); by constructor].
    apply andThen_run in Hrun
      as [(e & (-> & -> & He1)%encode_run & ->)
         |(e1 & w3 & ? & log3 & (-> & -> & He1)%encode_run & Hrun & ->)].
    { destruct He1 as [(? & _ & [=])|[E1 [= ->]]].
      eapply sends_uri_error; eauto. unfold endpointOf. by rewrite E1. }
    destruct He1 as [(? & E1 & [= <-])|[_ [=]]].
    pose proof (endpointOf_with pid io _ E1) as Hep.
    apply andThen_run in Hrun
      as [(e & Hend & ->)|(endpoint & w4 & log4 & log5 & Hend & Hrun & ->)].
    + destruct (withPid pid io); [|by apply resolve_run in Hend as (? & _)].
      apply andThen_run in Hend
        as [(e' & (-> & -> & He2)%encode_run & [= <-])
           |(e2 & ? & ? & ? & _ & (? & _)%resolve_run & _)]; [|done].
      destruct He2 as [(? & _ & [=])|[E2 [= ->]]]. rewrite E2 in Hep.
      by eapply sends_uri_error.
    + assert (endpointOf pid io = Some endpoint ∧ w4 = w2 ∧ log4 = [])
        as (Hendpoint & -> & ->).
      { destruct (withPid pid io).
        - apply andThen_run in Hend
            as [(e' & _ & [=])
               |(e2 & ? & ? & ? & (-> & -> & He2)%encode_run
                   & (? & -> & ->)%resolve_run & ->)].
          destruct He2 as [(? & E2 & [= <-])|[_ [=]]]. rewrite E2 in Hep.
          by simplify_eq.
        - apply resolve_run in Hend as (? & -> & ->). by simplify_eq. }
      apply andThen_run in Hrun
        as [(e & (Hky & ->)%invoke_run & ->)
           |(response & w5 & ? & log6 & (Hky & ->)%invoke_run
               & Hrun%interpret_run & ->)].
      * by eapply sends_transport_rejected.
      * by eapply sends_response.
  - intros Hsends.
    assert (Hencode : ∀ endpoint w1,
      endpointOf pid io = Some endpoint →
      andThen (encode (trim (resourceType io)))
        (λ e1, andThen
           (if withPid pid io
            then andThen (encode (normalizedPid pid))
                   (λ e2, resolve (e1 ++ js "/" ++ e2))
            else resolve e1)
           (λ endpoint, resolve endpoint)) w1
      = (Resolved endpoint, w1, [])).
    { intros endpoint w1. unfold endpointOf, encode, andThen, resolve.
      destruct (encodeURIComponent (trim _)); [|done].
      destruct (withPid pid io); [|by intros [= ->]].
      destruct (encodeURIComponent (normalizedPid _)); [|done]. by intros [= ->]. }
    destruct Hsends as [e w1 Htok|token w1 Htok Ht|token w1 Htok Ht Hep
      |token w1 endpoint e w2 Htok Ht Hep Hky
      |token w1 endpoint response w2 out w3 log Htok Ht Hep Hky Hint].
    + by erewrite andThen_rejected; [|by apply invoke_run].
    + erewrite andThen_resolved; [|by apply invoke_run|]; [done|].
      by rewrite Ht.
    + erewrite andThen_resolved; [|by apply invoke_run|]; [done|].
      rewrite Ht. simpl. revert Hep. unfold endpointOf, encode, andThen, resolve, throw.
      destruct (encodeURIComponent (trim _)); [|done].
      destruct (withPid pid io); [|done].
      by destruct (encodeURIComponent (normalizedPid _)).
    + erewrite andThen_resolved; [|by apply invoke_run|]; [done|].
      rewrite Ht. simpl. apply Hencode with (w1 := w1) in Hep.
      revert Hep. unfold encode, andThen, resolve.
      destruct (encodeURIComponent (trim _)); [|done].
      destruct (withPid pid io).
      * destruct (encodeURIComponent (normalizedPid _)); [|done].
        intros [= ->]. unfold invoke. by rewrite Hky.
      * intros [= ->]. unfold invoke. by rewrite Hky.
    + apply interpret_run in Hint.
      erewrite andThen_resolved; [|by apply invoke_run|]; [done|].
      rewrite Ht. simpl. apply Hencode with (w1 := w1) in Hep.
      revert Hep. unfold encode, andThen, resolve.
      destruct (encodeURIComponent (trim _)); [|done].
      destruct (withPid pid io).
      * destruct (encodeURIComponent (normalizedPid _)); [|done].
        intros [= ->]. unfold invoke at 1. rewrite Hky.
        unfold andThen, resolve in Hint. by rewrite Hint.
      * intros [= ->]. unfold invoke at 1. rewrite Hky.
        unfold andThen, resolve in Hint. by rewrite Hint.
Qed.

Lemma without_pid pid io :
  default true (pidRequired io) && (length (normalizedPid pid) =? 0) = false →
  withPid pid io = false → default true (pidRequired io) = false.
Proof.
  unfold withPid. destruct (default true (pidRequired io)); [|done].
  simpl. by destruct (length (normalizedPid pid)).
Qed.

Lemma request_paths this pid io w out w' log :
  request this pid io w = (out, w', log) ↔ Run this pid io w out w' log.
Proof.
  unfold request, callValidatePID.
  change (default [] (trim <$> pid)) with (normalizedPid pid).
  change (default true (pidRequired io) && (0 <? length (normalizedPid pid)))
    with (withPid pid io).
  change (mbind _ (invoke (this_getToken this) GetToken)) with (dispatch this pid io).
  unfold mbind, Async_bind.
  split.
  - case_bool_decide as Hrt; simpl; [|intros (-> & -> & ->)%throw_run; by constructor].
    destruct (default true (pidRequired io) && (length (normalizedPid pid) =? 0))
      eqn:Hnone.
    { apply andb_prop in Hnone as [Hreq Hlen%Nat.eqb_eq%length_zero_iff_nil].
      intros (-> & -> & ->)%throw_run. by apply run_no_pid. }
    intros [(e & Hval & ->)
           |([] & w1 & log1 & log2 & Hval & Hrun%dispatch_paths & ->)]%andThen_run.
    + destruct (withPid pid io) eqn:Hwith; [|by apply resolve_run in Hval as (? & _)].
      destruct (this_validatePID this) as [validate|] eqn:Hv.
      * apply andThen_run in Hval
          as [(e' & (Hval & ->)%invoke_run & [= <-])
             |([] & ? & ? & ? & (Hval & ->)%invoke_run & Hthrow & ->)].
        -- by eapply run_validator_rejected.
        -- by apply resolve_run in Hthrow as (? & _).
        -- apply throw_run in Hthrow as ([= ->] & -> & ->). by eapply run_invalid_pid.
      * apply throw_run in Hval as ([= ->] & -> & ->). by apply run_not_callable.
    + destruct (withPid pid io) eqn:Hwith.
      * destruct (this_validatePID this) as [validate|] eqn:Hv;
          [|by apply throw_run in Hval as (? & _)].
        apply andThen_run in Hval
          as [(e' & _ & [=])
             |([] & ? & ? & ? & (Hval & ->)%invoke_run & Hres & ->)].
        -- apply resolve_run in Hres as (_ & -> & ->). by eapply run_valid_pid.
        -- by apply throw_run in Hres as (? & _).
      * apply resolve_run in Hval as (_ & -> & ->). simpl.
        apply run_without_pid; [done|by apply (without_pid pid)|done].
  - assert (Hsome : withPid pid io = true →
      default true (pidRequired io) && (length (normalizedPid pid) =? 0) = false).
    { unfold withPid. intros [-> Hlen%Nat.ltb_lt]%andb_prop. simpl.
      apply Nat.eqb_neq. lia. }
    intros [Hrt|Hrt Hreq Hpid|Hrt Hwith Hv|validate e w1 Hrt Hwith Hv Hval
      |validate w1 Hrt Hwith Hv Hval|validate w1 r w2 l Hrt Hwith Hv Hval Hs
      |r w1 l Hrt Hreq Hs].
    + by rewrite bool_decide_eq_false_2.
    + rewrite bool_decide_eq_true_2 by done. simpl. by rewrite Hreq, Hpid.
    + rewrite bool_decide_eq_true_2 by done. simpl. by rewrite Hsome, Hwith, Hv.
    + rewrite bool_decide_eq_true_2 by done. simpl. rewrite Hsome, Hwith, Hv by done.
      apply andThen_rejected. apply andThen_rejected. by apply invoke_run.
    + rewrite bool_decide_eq_true_2 by done. simpl. rewrite Hsome, Hwith, Hv by done.
      apply andThen_rejected.
      erewrite andThen_resolved; [|by apply invoke_run|done].
      reflexivity.
    + rewrite bool_decide_eq_true_2 by done. simpl. rewrite Hsome, Hwith, Hv by done.
      apply dispatch_paths in Hs.
      erewrite andThen_resolved;
        [|eapply andThen_resolved; [by apply invoke_run|reflexivity]|exact Hs].
      reflexivity.
    + rewrite bool_decide_eq_true_2 by done. simpl.
      unfold withPid. rewrite Hreq. simpl.
      apply dispatch_paths in Hs.
      erewrite andThen_resolved; [|reflexivity|exact Hs]. reflexivity.
Qed.

(** [unsubscribe] awaits [request] and drops what it resolved to. *)
Lemma unsubscribe_run this pid rt options w :
  unsubscribe this pid rt options w =
    match request this pid (spread rt HTTP_METHODS.DELETE true options) w with
    | (Resolved _, w', log) => (Resolved (), w', log)
    | (Rejected e, w', log) => (Rejected e, w', log)
    end.
Proof.
  unfold unsubscribe, mbind, Async_bind, andThen.
  destruct (request _ _ _ _) as [[[v|e] w'] log]; [|done].
  simpl. by rewrite app_nil_r.
Qed.
End ClientFacts.

(** ** [NotificationService._request] *)

Section ServiceFacts.
Context `{Host}.

(** A call that resolves got a token and reached the transport, with the
    caller's headers laid over the Authorization header. *)
Lemma service_request_resolved (this : Service.NotificationService) pid io w v w' log :
  Service._request this pid io w = (Resolved v, w', log) →
  ∃ token endpoint response,
    GetToken (Resolved (Some token)) ∈ log ∧
    Ky endpoint
       {| call_method := default Service.METHODS.GET (Service.method io);
          call_headers := default ∅ (Service.headers io) ∪ bearer token;
          call_rest := Service.rest io |}
       (Resolved response) ∈ log.
Proof.
  unfold Service._request, mbind, Async_bind.
  destruct (negb _); [by intros (? & _)%throw_run|].
  destruct (_ && negb _); [by intros (? & _)%throw_run|].
  intros [(? & _ & [=])
         |([] & w1 & log1 & log2 & _ & Hrun & ->)]%andThen_run.
  apply andThen_run in Hrun
    as [(? & _ & [=])|(token & w2 & ? & log3 & (Htok & ->)%invoke_run & Hrun & ->)].
  destruct token as [[|u token]|]; simpl in Hrun;
    [by apply throw_run in Hrun as (? & _)| |by apply throw_run in Hrun as (? & _)].
  apply andThen_run in Hrun
    as [(? & _ & [=])|(e1 & w3 & ? & log4 & _ & Hrun & ->)].
  apply andThen_run in Hrun
    as [(? & _ & [=])|(endpoint & w4 & ? & log5 & _ & Hrun & ->)].
  apply andThen_run in Hrun
    as [(? & _ & [=])|(response & w5 & ? & log6 & (Hky & ->)%invoke_run & _ & ->)].
  exists (u :: token), endpoint, response. split; set_solver.
Qed.

End ServiceFacts.

(** ** The claims about [NotificationClient] *)

Section Validation.
Context `{Host}.
Implicit Types (this : NotificationClient) (pid : option JsString)
  (io : InternalRequestOptions) (w : World) (log : list Event).

Lemma request_invalid_type this pid io w :
  trim (resourceType io) ∉ this_resourceTypes this →
  request this pid io w = (Rejected (TypeError ERROR_MESSAGES.resourceType), w, []).
Proof. intros. apply request_paths. by apply run_invalid_type. Qed.

Lemma request_no_pid this pid io w :
  trim (resourceType io) ∈ this_resourceTypes this →
  default true (pidRequired io) = true →
  blankPid pid = true →
  request this pid io w = (Rejected (TypeError ERROR_MESSAGES.noPid), w, []).
Proof.
  intros ?? Hblank%normalizedPid_blank. apply request_paths. by apply run_no_pid.
Qed.

Lemma withPid_required pid io :
  default true (pidRequired io) = true → normalizedPid pid ≠ [] → withPid pid io = true.
Proof.
  unfold withPid. intros -> Hpid. simpl. by destruct (normalizedPid pid).
Qed.

(** C1: a call to [subscribe], [unsubscribe] or [getSubscriptions] whose
    trimmed resource type is not in the allowed set is rejected with the
    [TypeError] "Invalid resource type" (the specification's
    ValidationError), and its transcript is empty: neither the token
    supplier nor the PID validator (nor the transport) was invoked.
    [options] ranges over the declared [KyRequestOptions]. *)
Theorem invalid_resource_type_stops_the_call this pid resourceType
    (options : KyRequestOptions) w :
  trim resourceType ∉ this_resourceTypes this →
  subscribe this pid resourceType (declared options) w
    = (Rejected (TypeError ERROR_MESSAGES.resourceType), w, [])
  ∧ unsubscribe this pid resourceType (declared options) w
    = (Rejected (TypeError ERROR_MESSAGES.resourceType), w, [])
  ∧ getSubscriptions this resourceType (declared options) w
    = (Rejected (TypeError ERROR_MESSAGES.resourceType), w, []).
Proof.
  intros Hrt. split_and!.
  - by apply request_invalid_type.
  - rewrite unsubscribe_run, request_invalid_type; done.
  - by apply request_invalid_type.
Qed.

(** C4: with an allowed resource type, [subscribe] and [unsubscribe]
    called with a PID that is [null], [undefined], empty or white space
    only are rejected with the [TypeError] "PID is required", and the
    transcript is empty: neither the PID validator nor the token supplier
    was invoked. *)
Theorem missing_pid_is_rejected this pid resourceType (options : KyRequestOptions) w :
  trim resourceType ∈ this_resourceTypes this →
  blankPid pid = true →
  subscribe this pid resourceType (declared options) w
    = (Rejected (TypeError ERROR_MESSAGES.noPid), w, [])
  ∧ unsubscribe this pid resourceType (declared options) w
    = (Rejected (TypeError ERROR_MESSAGES.noPid), w, []).
Proof.
  intros Hrt Hpid. split.
  - by apply request_no_pid.
  - rewrite unsubscribe_run, request_no_pid; done.
Qed.

(** C5: when the PID validator resolves to a falsy value, [subscribe]
    and [unsubscribe] with an allowed resource type and a PID that is not
    empty once trimmed are rejected with the [TypeError] "PID is invalid";
    the transcript holds the validator's invocation and nothing else, so
    the token supplier was not invoked. *)
Theorem invalid_pid_is_rejected this validatePID (pid : JsString) resourceType
    (options : KyRequestOptions) w w1 :
  this_validatePID this = Some validatePID →
  trim resourceType ∈ this_resourceTypes this →
  trim pid ≠ [] →
  validatePID (trim pid) w = (Resolved false, w1) →
  let log := [ValidatePID (trim pid) (Resolved false)] in
  subscribe this (Some pid) resourceType (declared options) w
    = (Rejected (TypeError ERROR_MESSAGES.invalidPid), w1, log)
  ∧ unsubscribe this (Some pid) resourceType (declared options) w
    = (Rejected (TypeError ERROR_MESSAGES.invalidPid), w1, log)
  ∧ invocations isGetToken log = 0.
Proof.
  intros Hv Hrt Hpid Hval log.
  assert (Hrun : ∀ method, request this (Some pid)
      (spread resourceType method true (declared options)) w
    = (Rejected (TypeError ERROR_MESSAGES.invalidPid), w1, log)).
  { intros method. apply request_paths.
    eapply (run_invalid_pid this (Some pid)); eauto.
    by apply withPid_required. }
  split_and!; [apply Hrun|by rewrite unsubscribe_run, Hrun|done].
Qed.

(** C6: when the token supplier resolves to an empty or otherwise falsy
    token, [subscribe] and [unsubscribe] with an allowed resource type and
    a PID the validator approves are rejected with the [Error] "Token is
    required" (the specification's AuthError); the transcript holds one
    invocation of the validator, then the token supplier's, and no
    invocation of the transport. *)
Theorem missing_token_is_rejected this validatePID (pid : JsString) resourceType
    (options : KyRequestOptions) w w1 token w2 :
  this_validatePID this = Some validatePID →
  trim resourceType ∈ this_resourceTypes this →
  trim pid ≠ [] →
  validatePID (trim pid) w = (Resolved true, w1) →
  this_getToken this w1 = (Resolved token, w2) →
  truthy token = false →
  let log := [ValidatePID (trim pid) (Resolved true); GetToken (Resolved token)] in
  subscribe this (Some pid) resourceType (declared options) w
    = (Rejected (Error ERROR_MESSAGES.noToken), w2, log)
  ∧ unsubscribe this (Some pid) resourceType (declared options) w
    = (Rejected (Error ERROR_MESSAGES.noToken), w2, log)
  ∧ invocations isValidatePID log = 1
  ∧ invocations isKy log = 0.
Proof.
  intros Hv Hrt Hpid Hval Htok Ht log.
  assert (Hrun : ∀ method, request this (Some pid)
      (spread resourceType method true (declared options)) w
    = (Rejected (Error ERROR_MESSAGES.noToken), w2, log)).
  { intros method. apply request_paths.
    eapply (run_valid_pid this (Some pid)); eauto.
    - by apply withPid_required.
    - by apply sends_no_token. }
  split_and!; [apply Hrun|by rewrite unsubscribe_run, Hrun|done..].
Qed.

(** C7: whatever the client, the resource type, the options object a
    caller passes (including one that sets [pidRequired]) and whatever the
    validator would answer, the transcript of [getSubscriptions] holds no
    invocation of the PID validator. *)
Theorem getSubscriptions_never_validates this resourceType (options : Options) w :
  invocations isValidatePID (getSubscriptions this resourceType options w).2 = 0.
Proof.
  unfold getSubscriptions.
  destruct (request _ _ _ _) as [[out w'] log] eqn:Hrun. simpl.
  apply request_paths in Hrun.
  assert (Hwith : ∀ io, withPid None io = false)
    by (intros io; unfold withPid; apply andb_false_r).
  destruct Hrun as [| | | | | |out w1 log _ _ Hsends];
    try done; try (by rewrite Hwith in *).
  destruct Hsends as [| | | |???????? _ _ _ _ []]; done.
Qed.

End Validation.

Section Dispatch.
Context `{Host}.
Implicit Types (this : NotificationClient) (pid : option JsString)
  (io : InternalRequestOptions) (w : World) (log : list Event).

Lemma includes_spec l x : includes l x = true ↔ x ∈ l.
Proof. unfold includes. apply bool_decide_eq_true. Qed.

Lemma includes_false l x : includes l x = false ↔ x ∉ l.
Proof. unfold includes. apply bool_decide_eq_false. Qed.

(** What a call that resolves has done. *)
Lemma request_resolved this pid io w v w' log :
  request this pid io w = (Resolved v, w', log) →
  ∃ token endpoint response,
    withPid pid io = default true (pidRequired io) ∧
    endpointOf pid io = Some endpoint ∧
    GetToken (Resolved (Some token)) ∈ log ∧
    List.filter isKy log = [Ky endpoint (callOf io (Some token)) (Resolved response)].
Proof.
  intros Hrun%request_paths.
  assert (Hsends : ∀ w0 l, Sends this pid io w0 (Resolved v) w' l →
    ∃ token endpoint response,
      endpointOf pid io = Some endpoint ∧
      GetToken (Resolved (Some token)) ∈ l ∧
      List.filter isKy l = [Ky endpoint (callOf io (Some token)) (Resolved response)]).
  { intros w0 l Hs. inversion Hs as [| | | |token w1 endpoint response w2 ? ? l' Htok Ht Hep Hky Hint];
      subst.
    destruct token as [[|u token]|]; try done.
    exists (u :: token), endpoint, response. split_and!; [done|set_solver|].
    simpl. by inversion Hint; subst. }
  inversion Hrun as [| | | | |validate w1 ? ? l Hrt Hwith Hv Hval Hs|? ? l Hrt Hreq Hs]; subst.
  - apply Hsends in Hs as (token & endpoint & response & Hep & Hin & Hky).
    exists token, endpoint, response. split_and!; [|done|set_solver|by simpl; rewrite Hky].
    rewrite Hwith. unfold withPid in Hwith. by apply andb_prop in Hwith as [-> _].
  - apply Hsends in Hs as (token & endpoint & response & Hep & Hin & Hky).
    exists token, endpoint, response. split_and!; [|done..].
    unfold withPid. by rewrite Hreq.
Qed.

Lemma unsubscribe_succeeds this pid rt options w log :
  succeeds (unsubscribe this pid rt options) w log →
  succeeds (request this pid (spread rt HTTP_METHODS.DELETE true options)) w log.
Proof.
  intros (v & w' & Hrun). rewrite unsubscribe_run in Hrun.
  destruct (request _ _ _ _) as [[[v'|e] w''] log'] eqn:Hreq; [|done].
  injection Hrun as <- <- <-. by exists v', w''.
Qed.

(** C9: a [subscribe] or [unsubscribe] call that succeeds invoked the
    transport once, with the endpoint
    [encodeURIComponent(resourceType.trim()) + "/" +
    encodeURIComponent(pid.trim())]; a [getSubscriptions] call that
    succeeds, with [encodeURIComponent(resourceType.trim())] alone.  No
    encoded component holds a ["/"], and a ["/"] inside a component is
    encoded as ["%2F"]. *)
Theorem endpoint_is_percent_encoded this pid resourceType (options : KyRequestOptions) w log :
  (succeeds (subscribe this pid resourceType (declared options)) w log
   ∨ succeeds (unsubscribe this pid resourceType (declared options)) w log →
   ∃ p encodedType encodedPid call result,
     pid = Some p ∧
     encodeURIComponent (trim resourceType) = Some encodedType ∧
     encodeURIComponent (trim p) = Some encodedPid ∧
     List.filter isKy log = [Ky (encodedType ++ js "/" ++ encodedPid) call result] ∧
     (slash ∉ encodedType) ∧ (slash ∉ encodedPid))
  ∧ (succeeds (getSubscriptions this resourceType (declared options)) w log →
     ∃ encodedType call result,
       encodeURIComponent (trim resourceType) = Some encodedType ∧
       List.filter isKy log = [Ky encodedType call result] ∧
       slash ∉ encodedType)
  ∧ (∀ before after encoded,
       encodeURIComponent (before ++ slash :: after) = Some encoded →
       ∃ e1 e2, encodeURIComponent before = Some e1 ∧
                encodeURIComponent after = Some e2 ∧
                encoded = e1 ++ js "%2F" ++ e2).
Proof.
  split_and!.
  - assert (Hop : ∀ method,
      succeeds (request this pid (spread resourceType method true (declared options))) w log →
      ∃ p encodedType encodedPid call result,
        pid = Some p ∧
        encodeURIComponent (trim resourceType) = Some encodedType ∧
        encodeURIComponent (trim p) = Some encodedPid ∧
        List.filter isKy log = [Ky (encodedType ++ js "/" ++ encodedPid) call result] ∧
        (slash ∉ encodedType) ∧ (slash ∉ encodedPid)).
    { intros method (v & w' & Hrun).
      apply request_resolved in Hrun as (token & endpoint & response & Hwith & Hep & _ & Hky).
      simpl in Hwith. unfold endpointOf in Hep. rewrite Hwith in Hep. simpl in Hep.
      destruct pid as [p|]; [|done].
      destruct (encodeURIComponent (trim resourceType)) as [e1|] eqn:He1; [|done].
      unfold normalizedPid in Hep. simpl in Hep.
      destruct (encodeURIComponent (trim p)) as [e2|] eqn:He2; [|done].
      injection Hep as <-.
      exists p, e1, e2. eexists _, _. split_and!; try done.
      - by eapply encodeURIComponent_no_slash.
      - by eapply encodeURIComponent_no_slash. }
    intros [Hs|Hs%unsubscribe_succeeds]; by eapply Hop.
  - intros (v & w' & Hrun).
    apply request_resolved in Hrun as (token & endpoint & response & Hwith & Hep & _ & Hky).
    simpl in Hwith. unfold endpointOf in Hep. rewrite Hwith in Hep. simpl in Hep.
    destruct (encodeURIComponent (trim resourceType)) as [e1|] eqn:He1; [|done].
    injection Hep as <-.
    exists e1. eexists _, _. split_and!; try done.
    by eapply encodeURIComponent_no_slash.
  - apply encodeURIComponent_slash.
Qed.

Lemma interprets_total (response : Response) w :
  ∃ out w' log, Interprets response w out w' log ∧ invocations isValidatePID log = 0.
Proof.
  destruct (includes noBodyStatuses (status response)) eqn:Hs.
  - eexists _, _, _. split; [by apply interprets_no_body|done].
  - destruct (json response w) as [[body|e] w1] eqn:Hj.
    + eexists _, _, _. split; [by eapply interprets_body|done].
    + eexists _, _, _. split; [by eapply interprets_failure|done].
Qed.

(** C10: the options object is spread after the operation's own fields,
    so its [method] and [pidRequired] keys reach [request].  With
    [pidRequired: false], [subscribe] with an allowed resource type goes
    straight to the token supplier, whatever the PID (also one that trims
    to empty): the PID validator is not invoked, and the transport is
    invoked with the method the caller chose, if any, and with the encoded
    resource type alone as endpoint, which holds no ["/"]. *)
Theorem caller_options_override_the_fixed_fields this pid resourceType
    (options : Options) w token w1 endpoint :
  o_pidRequired options = Some false →
  trim (default resourceType (o_resourceType options)) ∈ this_resourceTypes this →
  this_getToken this w = (Resolved token, w1) →
  truthy token = true →
  encodeURIComponent (trim (default resourceType (o_resourceType options))) = Some endpoint →
  ∃ call result out w' log,
    subscribe this pid resourceType options w
      = (out, w', GetToken (Resolved token) :: Ky endpoint call result :: log)
    ∧ call_method call = default HTTP_METHODS.POST (o_method options)
    ∧ invocations isValidatePID
        (GetToken (Resolved token) :: Ky endpoint call result :: log) = 0
    ∧ (slash ∉ endpoint).
Proof.
  intros Hflag Hrt Htok Ht He.
  set (io := spread resourceType HTTP_METHODS.POST true options).
  assert (Hreq : default true (pidRequired io) = false) by (simpl; by rewrite Hflag).
  assert (Hep : endpointOf pid io = Some endpoint).
  { unfold endpointOf, withPid. rewrite Hreq. simpl. by rewrite He. }
  exists (callOf io token).
  destruct (this_ky this endpoint (callOf io token) w1) as [[response|e] w2] eqn:Hky.
  - destruct (interprets_total response w2) as (out & w' & log & Hint & Hlog).
    exists (Resolved response), out, w', log. split_and!.
    + apply request_paths. apply run_without_pid; [done..|].
      by eapply sends_response.
    + done.
    + done.
    + by eapply encodeURIComponent_no_slash.
  - exists (Rejected e), (Rejected e), w2, []. split_and!.
    + apply request_paths. apply run_without_pid; [done..|].
      by eapply sends_transport_rejected.
    + done.
    + done.
    + by eapply encodeURIComponent_no_slash.
Qed.

End Dispatch.

Section Corrections.
Context `{Host}.

Lemma client_sends_bearer (this : NotificationClient) pid io w log :
  headers io = None →
  succeeds (request this pid io) w log → sentWith log bearer.
Proof.
  intros Hh (v & w' & Hrun).
  apply request_resolved in Hrun as (token & endpoint & response & _ & _ & Htok & Hky).
  exists token, endpoint, (callOf io (Some token)), response. split_and!; [done| |].
  - apply list_elem_of_In. eapply (proj1 (filter_In isKy _ _)).
    rewrite Hky. by left.
  - unfold callOf. simpl. by rewrite Hh.
Qed.

Lemma service_sends_merged (this : Service.NotificationService) pid io w log :
  succeeds (Service._request this pid io) w log →
  sentWith log (λ token, default ∅ (Service.headers io) ∪ bearer token).
Proof.
  intros (v & w' & Hrun).
  apply service_request_resolved in Hrun as (token & endpoint & response & Htok & Hky).
  by eexists token, endpoint, _, response.
Qed.

(** C2, as amended: every successful call invoked the transport with
    headers built from the token the supplier resolved to.
    [NotificationClient] sends [{ Authorization: "Bearer " + token }]
    whenever the options object carries no [headers] key, which is what
    its declared option type allows.  [NotificationService] sends the
    caller's headers laid key by key over that header: Authorization is
    ["Bearer " + token] unless the caller's headers hold an Authorization
    key, and every header of the caller is sent as given. *)
Theorem authorization_header_is_sent (client : NotificationClient)
    (service : Service.NotificationService) pid resourceType w log :
  (∀ options : Options,
     o_headers options = None →
     (succeeds (subscribe client pid resourceType options) w log → sentWith log bearer)
     ∧ (succeeds (unsubscribe client pid resourceType options) w log → sentWith log bearer)
     ∧ (succeeds (getSubscriptions client resourceType options) w log
        → sentWith log bearer))
  ∧ (∀ options : Service.Options,
     let merged token := default ∅ (Service.o_headers options) ∪ bearer token in
     (succeeds (Service.subscribe service pid resourceType options) w log
      → sentWith log merged)
     ∧ (succeeds (Service.unsubscribe service pid resourceType options) w log
        → sentWith log merged)
     ∧ (succeeds (Service.getSubscriptions service resourceType options) w log
        → sentWith log merged))
  ∧ (∀ (headers : gmap string JsString) token,
       (headers !! "Authorization" = None →
        (headers ∪ bearer token) !! "Authorization" = Some (js "Bearer " ++ token))
       ∧ (∀ key value, headers !! key = Some value →
          (headers ∪ bearer token) !! key = Some value)).
Proof.
  split_and!.
  - intros options Hh. split_and!.
    + by apply client_sends_bearer.
    + intros Hs%unsubscribe_succeeds. revert Hs. by apply client_sends_bearer.
    + by apply client_sends_bearer.
  - intros options merged. split_and!; apply service_sends_merged.
  - intros headers token. split.
    + intros Hnone. rewrite lookup_union_r by done. apply lookup_singleton_eq.
    + intros key value Hkey. by apply lookup_union_Some_l.
Qed.

(** C3, as amended: a constructor argument whose resource types
    normalize to nothing never yields a client: construction throws a
    [TypeError] (the specification's ConfigError).  The checks run in
    order, so the message is "resourceTypes must be a non-empty array of
    strings" when the three earlier checks pass: [prefixUrl] is not empty,
    [getToken] is a function, and [validatePID] is not a truthy value
    other than a function. *)
Theorem empty_resource_types_are_rejected ky_create (options : NotificationClientOptions) :
  normalizeResourceTypes (default DEFAULT_TYPES (resourceTypes options)) = [] →
  (∃ message, constructor ky_create options = inl (TypeError message))
  ∧ (missing (prefixUrl options) = false →
     (∃ supplier, getToken options = Callable supplier) →
     validatePID options ≠ NotCallable true →
     constructor ky_create options = inl (TypeError ERROR_MESSAGES.resourceTypes)).
Proof.
  intros Hnil. unfold constructor. rewrite Hnil. simpl. split.
  - destruct (missing _); [by eexists|].
    destruct (getToken options); [by eexists..|].
    destruct (validatePID options) as [|[]|]; by eexists.
  - intros -> [supplier ->] Hv.
    by destruct (validatePID options) as [|[]|].
Qed.

Ltac absent Hin :=
  repeat (apply elem_of_cons in Hin as [[=]|Hin]); by apply elem_of_nil in Hin.

Lemma request_interprets (this : NotificationClient) pid io w out w' log
    endpoint call response :
  request this pid io w = (out, w', log) →
  Ky endpoint call (Resolved response) ∈ log →
  interpretedAs Some None response out w' log.
Proof.
  intros Hrun%request_paths Hin.
  assert (Hint : ∀ w2 l, Interprets response w2 out w' l →
    ∀ prefix, invocations isJson prefix = 0 →
    interpretedAs Some None response out w' (prefix ++ l)).
  { intros w2 l Hint prefix Hprefix. unfold interpretedAs, invocations in *.
    rewrite !List.filter_app, !length_app, Hprefix.
    setoid_rewrite elem_of_app.
    destruct Hint as [Hs|body w3 Hs Hj|e w3 Hs Hj].
    - apply includes_spec in Hs. by split.
    - apply includes_false in Hs. split; [done|]. intros _.
      exists w2, (Resolved body). split_and!; [done| |done..].
      right. by apply list_elem_of_singleton.
    - apply includes_false in Hs. split; [done|]. intros _.
      exists w2, (Rejected e). split_and!; [done| |done..].
      right. by apply list_elem_of_singleton. }
  assert (Hsends : ∀ w0 l, Sends this pid io w0 out w' l →
    Ky endpoint call (Resolved response) ∈ l →
    ∀ prefix, invocations isJson prefix = 0 →
    interpretedAs Some None response out w' (prefix ++ l)).
  { intros w0 l Hs Hl prefix Hprefix.
    destruct Hs as [| | | |token w1 ep response' w2 out w3 l Htok Ht Hep Hky Hi];
      try (by absent Hl).
    assert (response' = response) as ->.
    { apply elem_of_cons in Hl as [[=]|Hl].
      apply elem_of_cons in Hl as [[=]|Hl]; [done|].
      destruct Hi; absent Hl. }
    rewrite (cons_middle _ prefix), app_assoc.
    rewrite (cons_middle (Ky _ _ _)), app_assoc.
    eapply Hint; [done|]. unfold invocations in *.
    rewrite !List.filter_app, !length_app, Hprefix. done. }
  destruct Hrun as [| | | | |validate w1 out w2 l Hrt Hwith Hv Hval Hs|out w1 l Hrt Hreq Hs];
    try (by absent Hin).
  - apply elem_of_cons in Hin as [[=]|Hin].
    by apply (Hsends _ _ Hs Hin [ValidatePID _ _]).
  - by apply (Hsends _ _ Hs Hin []).
Qed.

(** C8, as amended: in every call in which the transport returned a
    response, a status of 204, 205 or 304 makes the operation resolve to
    no value without [json()] being invoked; with any other status
    [json()] is invoked once, [subscribe] and [getSubscriptions] resolve
    to the parsed value, [unsubscribe] resolves to no value, and a
    rejection of [json()] is the rejection of the call, unchanged. *)
Theorem response_is_interpreted (this : NotificationClient) pid resourceType
    (options : Options) w w' log endpoint call response :
  Ky endpoint call (Resolved response) ∈ log →
  (∀ out, subscribe this pid resourceType options w = (out, w', log) →
          interpretedAs Some None response out w' log)
  ∧ (∀ out, getSubscriptions this resourceType options w = (out, w', log) →
            interpretedAs Some None response out w' log)
  ∧ (∀ out, unsubscribe this pid resourceType options w = (out, w', log) →
            interpretedAs (λ _, ()) () response out w' log).
Proof.
  intros Hin. split_and!.
  - intros out Hrun. by eapply request_interprets.
  - intros out Hrun. by eapply request_interprets.
  - intros out. rewrite unsubscribe_run.
    destruct (request _ _ _ _) as [[r w1] l] eqn:Hrun.
    assert (Hi : interpretedAs Some None response r w1 l → w1 = w' → l = log →
      ∀ out, out = match r with Resolved _ => Resolved () | Rejected e => Rejected e end →
      interpretedAs (λ _, ()) () response out w' log).
    { intros [Hno Hbody] -> -> ? ->. split.
      - intros Hs. by destruct (Hno Hs) as [-> ?].
      - intros Hs. destruct (Hbody Hs) as (w2 & result & Hj & Hjin & Hcount & ->).
        exists w2, result. split_and!; [done..|]. by destruct result. }
    destruct r; intros [= <- <- <-]; (eapply Hi; [|done..]);
      by eapply request_interprets.
Qed.

End Corrections.

(** ** The claims at the mocks *)

Section Witnesses.
#[local] Existing Instance mockHost.
Transparent js encodeURIComponent trim.

Lemma invalid_resource_type_witness :
  (trim (js "portals") ∉ this_resourceTypes theClient)
  ∧ subscribe theClient (Some (js "pid-123")) (js "portals") (declared None) 0
    = (Rejected (TypeError ERROR_MESSAGES.resourceType), 0, [])
  ∧ unsubscribe theClient (Some (js "pid-123")) (js "portals") (declared None) 0
    = (Rejected (TypeError ERROR_MESSAGES.resourceType), 0, [])
  ∧ getSubscriptions theClient (js "portals") (declared None) 0
    = (Rejected (TypeError ERROR_MESSAGES.resourceType), 0, []).
Proof.
  assert (Hrt : trim (js "portals") ∉ this_resourceTypes theClient)
    by (apply (bool_decide_unpack _); vm_compute; exact I).
  split; [exact Hrt|].
  exact (invalid_resource_type_stops_the_call theClient (Some (js "pid-123"))
           (js "portals") None 0 Hrt).
Defined.

Lemma missing_pid_witness :
  trim (js "citations") ∈ this_resourceTypes theClient
  ∧ blankPid (Some (js "   ")) = true
  ∧ subscribe theClient (Some (js "   ")) (js "citations") (declared None) 0
    = (Rejected (TypeError ERROR_MESSAGES.noPid), 0, [])
  ∧ unsubscribe theClient (Some (js "   ")) (js "citations") (declared None) 0
    = (Rejected (TypeError ERROR_MESSAGES.noPid), 0, []).
Proof.
  assert (Hrt : trim (js "citations") ∈ this_resourceTypes theClient)
    by (apply (bool_decide_unpack _); vm_compute; exact I).
  assert (Hpid : blankPid (Some (js "   ")) = true) by reflexivity.
  split; [exact Hrt|]. split; [exact Hpid|].
  exact (missing_pid_is_rejected theClient (Some (js "   ")) (js "citations") None 0
           Hrt Hpid).
Defined.

Lemma invalid_pid_witness :
  let log := [ValidatePID (trim (js " pid-123 ")) (Resolved false)] in
  subscribe strictClient (Some (js " pid-123 ")) (js "citations") (declared None) 0
    = (Rejected (TypeError ERROR_MESSAGES.invalidPid), 1, log)
  ∧ unsubscribe strictClient (Some (js " pid-123 ")) (js "citations") (declared None) 0
    = (Rejected (TypeError ERROR_MESSAGES.invalidPid), 1, log)
  ∧ invocations isGetToken log = 0.
Proof.
  apply (invalid_pid_is_rejected strictClient (validatorMock false) (js " pid-123 ")
           (js "citations") None 0 1).
  - reflexivity.
  - apply (bool_decide_unpack _). vm_compute. exact I.
  - vm_compute. discriminate.
  - reflexivity.
Defined.

Lemma missing_token_witness :
  let log := [ValidatePID (trim (js "pid-123")) (Resolved true);
              GetToken (Resolved (Some []))] in
  subscribe tokenlessClient (Some (js "pid-123")) (js "citations") (declared None) 0
    = (Rejected (Error ERROR_MESSAGES.noToken), 2, log)
  ∧ unsubscribe tokenlessClient (Some (js "pid-123")) (js "citations") (declared None) 0
    = (Rejected (Error ERROR_MESSAGES.noToken), 2, log)
  ∧ invocations isValidatePID log = 1
  ∧ invocations isKy log = 0.
Proof.
  apply (missing_token_is_rejected tokenlessClient (validatorMock true) (js "pid-123")
           (js "citations") None 0 1 (Some []) 2).
  - reflexivity.
  - apply (bool_decide_unpack _). vm_compute. exact I.
  - vm_compute. discriminate.
  - reflexivity.
  - reflexivity.
  - reflexivity.
Defined.

Lemma endpoint_witness :
  ∃ p encodedType encodedPid call result,
    Some (js "doi:10.abc/123") = Some p ∧
    encodeURIComponent (trim (js "datasetChanges")) = Some encodedType ∧
    encodeURIComponent (trim p) = Some encodedPid ∧
    List.filter isKy
      (subscribe theClient (Some (js "doi:10.abc/123")) (js "datasetChanges")
         (declared None) 0).2
    = [Ky (encodedType ++ js "/" ++ encodedPid) call result] ∧
    (slash ∉ encodedType) ∧ (slash ∉ encodedPid).
Proof.
  apply (proj1 (endpoint_is_percent_encoded theClient (Some (js "doi:10.abc/123"))
                  (js "datasetChanges") None 0 _)).
  left. exists (Some subscription), 4. vm_compute. reflexivity.
Defined.

Lemma override_witness :
  ∃ call result out w' log,
    subscribe theClient (Some (js "  ")) (js "citations") withoutPid 0
      = (out, w', GetToken (Resolved (Some (js "token-123")))
                    :: Ky (js "citations") call result :: log)
    ∧ call_method call = default HTTP_METHODS.POST (o_method withoutPid)
    ∧ invocations isValidatePID
        (GetToken (Resolved (Some (js "token-123")))
           :: Ky (js "citations") call result :: log) = 0
    ∧ (slash ∉ js "citations").
Proof.
  apply (caller_options_override_the_fixed_fields theClient (Some (js "  "))
           (js "citations") withoutPid 0 (Some (js "token-123")) 1 (js "citations")).
  - reflexivity.
  - apply (bool_decide_unpack _). vm_compute. exact I.
  - reflexivity.
  - reflexivity.
  - reflexivity.
Defined.

Lemma authorization_header_witness :
  sentWith
    (subscribe theClient (Some (js "pid-123")) (js "citations") (declared None) 0).2
    bearer
  ∧ sentWith
      (Service.subscribe theService (Some (js "pid-123")) (js "citations") serviceTrace 0).2
      (λ token, traceHeaders ∪ bearer token).
Proof.
  split.
  - apply (proj1 (proj1 (authorization_header_is_sent theClient theService
                    (Some (js "pid-123")) (js "citations") 0 _)
                    (declared (H := mockHost) None) eq_refl)).
    exists (Some subscription), 4. vm_compute. reflexivity.
  - apply (proj1 (proj1 (proj2 (authorization_header_is_sent theClient theService
                    (Some (js "pid-123")) (js "citations") 0 _)) serviceTrace)).
    exists (Some subscription), 4. vm_compute. reflexivity.
Defined.

Lemma empty_resource_types_witness :
  normalizeResourceTypes (default DEFAULT_TYPES (resourceTypes blankTypes)) = []
  ∧ constructor createMock blankTypes = inl (TypeError ERROR_MESSAGES.resourceTypes).
Proof.
  assert (Hnil : normalizeResourceTypes (default DEFAULT_TYPES (resourceTypes blankTypes))
                 = []) by reflexivity.
  split; [exact Hnil|].
  apply (proj2 (empty_resource_types_are_rejected createMock blankTypes Hnil)).
  - reflexivity.
  - eexists. reflexivity.
  - discriminate.
Defined.

Lemma response_witness :
  interpretedAs Some None (responseMock 204 (Resolved subscription))
    (Resolved None) 3
    (subscribe quietClient (Some (js "pid-999")) (js "datasetChanges") (declared None) 0).2.
Proof.
  refine (proj1 (response_is_interpreted quietClient (Some (js "pid-999"))
                   (js "datasetChanges") (declared None) 0 3 _
                   (js "datasetChanges/pid-999")
                   (callOf (spread (js "datasetChanges") HTTP_METHODS.POST true
                              (declared None)) (Some (js "token-abc")))
                   (responseMock 204 (Resolved subscription)) _) _ _).
  - vm_compute. repeat constructor.
  - vm_compute. reflexivity.
Defined.

End Witnesses.

Section Counterexamples.
#[local] Existing Instance mockHost.

(** Against C2 as stated: [NotificationClient.subscribe] called with
    [{ headers: { "X-Trace": "1" } }] succeeds, the caller's headers hold
    no Authorization key, and the transport is called with the caller's
    headers alone: no Authorization header is sent. *)
Lemma caller_headers_replace_authorization :
  subscribe theClient (Some (js "pid-123")) (js "datasetChanges") clientTrace 0
  = (Resolved (Some subscription), 4,
     [ValidatePID (js "pid-123") (Resolved true);
      GetToken (Resolved (Some (js "token-123")));
      Ky (js "datasetChanges/pid-123")
         {| call_method := "POST"; call_headers := traceHeaders; call_rest := None |}
         (Resolved (responseMock 200 (Resolved subscription)));
      Json (Resolved subscription)])
  ∧ o_headers clientTrace = Some traceHeaders
  ∧ traceHeaders !! "Authorization" = None.
Proof. split_and!; [vm_compute; reflexivity|reflexivity|reflexivity]. Qed.

(** Against C3 as stated: with an empty [prefixUrl] and [resourceTypes: []]
    the resource types normalize to nothing, and construction fails with
    "prefixUrl is required", not with the message about resource types. *)
Lemma prefixUrl_is_checked_first :
  normalizeResourceTypes (default DEFAULT_TYPES (resourceTypes noPrefix)) = []
  ∧ constructor createMock noPrefix = inl (TypeError ERROR_MESSAGES.prefixUrl)
  ∧ constructor createMock noPrefix ≠ inl (TypeError ERROR_MESSAGES.resourceTypes).
Proof. split_and!; [reflexivity|reflexivity|]. vm_compute. discriminate. Qed.

(** Against C8 as stated: the transport answers 200 with a body,
    [unsubscribe] has the body parsed and resolves to no value. *)
Lemma unsubscribe_drops_the_body :
  unsubscribe theClient (Some (js "pid-999")) (js "datasetChanges") (declared None) 0
  = (Resolved (), 4,
     [ValidatePID (js "pid-999") (Resolved true);
      GetToken (Resolved (Some (js "token-123")));
      Ky (js "datasetChanges/pid-999")
         {| call_method := "DELETE";
            call_headers := bearer (js "token-123");
            call_rest := None |}
         (Resolved (responseMock 200 (Resolved subscription)));
      Json (Resolved subscription)])
  ∧ (200 ∉ noBodyStatuses)%Z.
Proof.
  split; [vm_compute; reflexivity|]. apply (bool_decide_unpack _). vm_compute. exact I.
Qed.

End Counterexamples.

(** ** The tests of the suite, replayed on the model *)

Section Tests.
#[local] Existing Instance mockHost.

Example instantiates_a_client :
  Client.constructor createMock
    (mockOptions (Some (js "token-123")) true 200 (Resolved subscription))
  = inr (mockClient (Some (js "token-123")) true 200 (Resolved subscription)).
Proof. vm_compute. reflexivity. Qed.

Example subscribes_to_a_PID :
  Client.subscribe (mockClient (Some (js "token-123")) true 200 (Resolved subscription))
    (Some (js "pid-123")) (js "datasetChanges") (Client.declared None) 0
  = (Resolved (Some subscription), 4,
     [ValidatePID (js "pid-123") (Resolved true);
      GetToken (Resolved (Some (js "token-123")));
      Ky (js "datasetChanges/pid-123")
         {| call_method := "POST";
            call_headers := {[ "Authorization" := js "Bearer token-123" ]};
            call_rest := None |}
         (Resolved (responseMock 200 (Resolved subscription)));
      Json (Resolved subscription)]).
Proof. vm_compute. reflexivity. Qed.

Example unsubscribes_from_a_PID :
  Client.unsubscribe (mockClient (Some (js "token-abc")) true 204 (Resolved subscription))
    (Some (js "pid-999")) (js "datasetChanges") (Client.declared None) 0
  = (Resolved (), 3,
     [ValidatePID (js "pid-999") (Resolved true);
      GetToken (Resolved (Some (js "token-abc")));
      Ky (js "datasetChanges/pid-999")
         {| call_method := "DELETE";
            call_headers := {[ "Authorization" := js "Bearer token-abc" ]};
            call_rest := None |}
         (Resolved (responseMock 204 (Resolved subscription)))]).
Proof. vm_compute. reflexivity. Qed.

Example fetches_subscriptions :
  Client.getSubscriptions (mockClient (Some (js "token-xyz")) true 200 (Resolved subscription))
    (js "datasetChanges") (Client.declared None) 0
  = (Resolved (Some subscription), 3,
     [GetToken (Resolved (Some (js "token-xyz")));
      Ky (js "datasetChanges")
         {| call_method := "GET";
            call_headers := {[ "Authorization" := js "Bearer token-xyz" ]};
            call_rest := None |}
         (Resolved (responseMock 200 (Resolved subscription)));
      Json (Resolved subscription)]).
Proof. vm_compute. reflexivity. Qed.

End Tests.
